(** * A shallow embedding of the state engine of automatic-spoon (src/src/app.rs)

    The [App] component keeps a durable [State] (lists and groups, both
    [BTreeMap]s keyed by name) and a transient [View] (focus, input buffers
    and the freeze/thaw selection cache).  [App::update] dispatches one
    [Msg], then stores the serialized [State] under a fixed key.

    Modelling choices:
    - [BTreeMap<String, V>] is [gmap string V];
    - a Rust panic ([Vec::remove] out of bounds, [Option::unwrap] on
      [None]) makes the handler return [None];
    - the two capabilities the handler consults are an [Env]: the answer of
      [DialogService::confirm] and the raw draw of the random generator;
    - the local storage is the log of snapshots written so far. *)

From Stdlib Require Import List Arith Lia.
From stdpp Require Import base gmap strings list.
Import ListNotations.

(** ** Data model (lines 24-57) *)

Record Item := mkItem {
  name : option string;
  image : option string;
  link : option string;
  comment : option string;
}.

(** [#[derive(Default)]] on [Item]: all four fields [None]. *)
Definition Item_default : Item := mkItem None None None None.

Record State := mkState {
  lists : gmap string (list Item);
  groups : gmap string (list string);
}.

(** [State::default()]. *)
Definition State_default : State := mkState ∅ ∅.

Record View := mkView {
  current_list : string;
  new_list_name : string;
  current_group : string;
  new_group_name : string;
  cache : gmap string Item;
  current_item : option nat;
}.

(** [View::default()]. *)
Definition View_default : View := mkView "" "" "" "" ∅ None.

(** The parts of [App] the handler touches; [storage] is the sequence of
    snapshots stored under [KEY], most recent last. *)
Record App := mkApp {
  state : State;
  view : View;
  storage : list State;
}.

Inductive Msg :=
| CreateItem
| EditItemName (text : string)
| EditItemImage (text : string)
| EditItemLink (text : string)
| EditItemComment (text : string)
| FocusItem (idx : nat)
| BlurItem
| CreateList
| FocusList (n : string)
| BlurList
| UpdateListName (text : string)
| RemoveList (n : string)
| RemoveListItem (idx : nat)
| CreateGroup
| FocusGroup (n : string)
| BlurGroup
| AddToGroup (entry : string)
| UpdateGroupName (text : string)
| RemoveGroup (n : string)
| RemoveGroupItem (n : string)
| ThawAllLists
| FreezeList (n : string)
| ThawList (n : string)
| Purge
| Tick
| Nothing.

(** The external capabilities consulted while handling one message:
    the answer the user gives to [self.dialog.confirm(..)], and the raw
    number drawn by [OsRng] ([IteratorRandom::choose] on an iterator of
    exact size [n] takes the index [gen_range(0..n)], modelled as
    [rng mod n], which covers every index of [0..n)). *)
Record Env := mkEnv {
  confirm : bool;
  rng : nat;
}.

(** ** Vec and iterator operations *)

(** [Vec::remove(idx)]: shifts the tail left; panics when [idx >= len]. *)
Definition vec_remove_at {A} (idx : nat) (l : list A) : list A :=
  take idx l ++ drop (S idx) l.

Definition vec_remove {A} (idx : nat) (l : list A) : option (list A) :=
  if decide (idx < length l) then Some (vec_remove_at idx l) else None.

(** [group.iter().position(|x| *x == name)]. *)
Fixpoint position (n : string) (l : list string) : option nat :=
  match l with
  | [] => None
  | x :: l' =>
      if String.eqb x n then Some 0
      else match position n l' with Some i => Some (S i) | None => None end
  end.

(** [while let Some(idx) = group.iter().position(|x| *x == name)
       { group.remove(idx); }]
    Each round removes one element, so [length group + 1] rounds suffice;
    the index comes from [position], hence is in bounds (lemma
    [position_lt]) and [group.remove] cannot panic there. *)
Fixpoint remove_all_loop (fuel : nat) (n : string) (group : list string)
  : list string :=
  match fuel with
  | 0 => group
  | S fuel' =>
      match position n group with
      | None => group
      | Some idx => remove_all_loop fuel' n (vec_remove_at idx group)
      end
  end.

Definition remove_all (n : string) (group : list string) : list string :=
  remove_all_loop (S (length group)) n group.

(** The predicate of [List.filter] that keeps the members other than [n]. *)
Definition keep_other (n : string) (x : string) : bool := negb (String.eqb x n).

(** [list.iter().choose(&mut rng)]: [None] on an empty iterator. *)
Definition choose {A} (r : nat) (l : list A) : option A :=
  match l with
  | [] => None
  | _ => nth_error l (r mod length l)
  end.

(** ** The selection cache (lines 341, 344, 347, 472) *)

Definition freeze (n : string) (it : Item) (c : gmap string Item) :=
  <[n := it]> c.
Definition thaw (n : string) (c : gmap string Item) := delete n c.
Definition thaw_all (c : gmap string Item) : gmap string Item := ∅.
Definition peek (c : gmap string Item) (n : string) : option Item := c !! n.

(** ** The handler (lines 208-363 and 385-405, 616-625) *)

(** [App::choose_from_list]: [unwrap_or_default] when the list is absent,
    [.unwrap()] of the random choice when it is present. *)
Definition choose_from_list (env : Env) (s : State) (n : string) : option Item :=
  match lists s !! n with
  | None => Some Item_default
  | Some l =>
      match choose (rng env) l with
      | Some it => Some it
      | None => None
      end
  end.

(** [match text.is_empty() { true => None, false => Some(text) }]. *)
Definition field_of_text (text : string) : option string :=
  if String.eqb text "" then None else Some text.

(** [if let Some(item) = self.get_current_item_mut() { ... }]: the item
    is reached only through [lists.get_mut(current_list)] and
    [list.get_mut(idx)], both bounds-checked. *)
Definition edit_current_item (upd : Item -> Item) (s : State) (v : View) : State :=
  match lists s !! current_list v, current_item v with
  | Some l, Some idx =>
      match l !! idx with
      | Some it => mkState (<[current_list v := <[idx := upd it]> l]> (lists s)) (groups s)
      | None => s
      end
  | _, _ => s
  end.

Definition set_name (f : option string) (it : Item) :=
  mkItem f (image it) (link it) (comment it).
Definition set_image (f : option string) (it : Item) :=
  mkItem (name it) f (link it) (comment it).
Definition set_link (f : option string) (it : Item) :=
  mkItem (name it) (image it) f (comment it).
Definition set_comment (f : option string) (it : Item) :=
  mkItem (name it) (image it) (link it) f.

(** [map.entry(key).or_default()]. *)
Definition entry_or_default {V} (d : V) (k : string) (m : gmap string V) :=
  match m !! k with
  | Some _ => m
  | None => <[k := d]> m
  end.

Definition set_current_list (x : string) (v : View) :=
  mkView x (new_list_name v) (current_group v) (new_group_name v) (cache v) (current_item v).
Definition set_new_list_name (x : string) (v : View) :=
  mkView (current_list v) x (current_group v) (new_group_name v) (cache v) (current_item v).
Definition set_current_group (x : string) (v : View) :=
  mkView (current_list v) (new_list_name v) x (new_group_name v) (cache v) (current_item v).
Definition set_new_group_name (x : string) (v : View) :=
  mkView (current_list v) (new_list_name v) (current_group v) x (cache v) (current_item v).
Definition set_cache (c : gmap string Item) (v : View) :=
  mkView (current_list v) (new_list_name v) (current_group v) (new_group_name v) c (current_item v).
Definition set_current_item (i : option nat) (v : View) :=
  mkView (current_list v) (new_list_name v) (current_group v) (new_group_name v) (cache v) i.

(** The [match msg { ... }] of [App::update]; [None] is a panic. *)
Definition handle (env : Env) (msg : Msg) (s : State) (v : View)
  : option (State * View) :=
  match msg with
  | CreateList =>
      (* entry(new_list_name.clone()).or_default();
         current_list = new_list_name.split_off(0) *)
      let s' := mkState (entry_or_default [] (new_list_name v) (lists s)) (groups s) in
      Some (s', set_new_list_name "" (set_current_list (new_list_name v) v))
  | CreateGroup =>
      let s' := mkState (lists s) (entry_or_default [] (new_group_name v) (groups s)) in
      Some (s', set_new_group_name "" (set_current_group (new_group_name v) v))
  | FocusList n => Some (s, set_current_list n v)
  | FocusGroup n => Some (s, set_current_group n v)
  | BlurList => Some (s, set_current_item None (set_current_list "" v))
  | BlurGroup => Some (s, set_current_group "" v)
  | CreateItem =>
      match lists s !! current_list v with
      | Some l =>
          let l' := l ++ [Item_default] in
          Some (mkState (<[current_list v := l']> (lists s)) (groups s),
                set_current_item (Some (length l' - 1)) v)
      | None => Some (s, set_current_item None v)
      end
  | FocusItem idx => Some (s, set_current_item (Some idx) v)
  | BlurItem => Some (s, set_current_item None v)
  | AddToGroup entry =>
      match groups s !! current_group v with
      | Some g => Some (mkState (lists s) (<[current_group v := g ++ [entry]]> (groups s)), v)
      | None => Some (s, v)
      end
  | UpdateListName text => Some (s, set_new_list_name text v)
  | EditItemName text => Some (edit_current_item (set_name (field_of_text text)) s v, v)
  | EditItemImage text => Some (edit_current_item (set_image (field_of_text text)) s v, v)
  | EditItemLink text => Some (edit_current_item (set_link (field_of_text text)) s v, v)
  | EditItemComment text => Some (edit_current_item (set_comment (field_of_text text)) s v, v)
  | UpdateGroupName text => Some (s, set_new_group_name text v)
  | RemoveList n =>
      if confirm env then
        match lists s !! n with
        | Some _ => Some (mkState (delete n (lists s)) (remove_all n <$> groups s), v)
        | None => Some (mkState (delete n (lists s)) (groups s), v)
        end
      else Some (s, v)
  | RemoveListItem idx =>
      match lists s !! current_list v with
      | Some l =>
          match vec_remove idx l with
          | Some l' => Some (mkState (<[current_list v := l']> (lists s)) (groups s), v)
          | None => None
          end
      | None => Some (s, v)
      end
  | RemoveGroup n =>
      if confirm env then Some (mkState (lists s) (delete n (groups s)), v)
      else Some (s, v)
  | RemoveGroupItem n =>
      match groups s !! current_group v with
      | Some g => Some (mkState (lists s) (<[current_group v := remove_all n g]> (groups s)), v)
      | None => Some (s, v)
      end
  | FreezeList n =>
      match choose_from_list env s n with
      | Some it => Some (s, set_cache (freeze n it (cache v)) v)
      | None => None
      end
  | ThawList n => Some (s, set_cache (thaw n (cache v)) v)
  | ThawAllLists => Some (s, set_cache (thaw_all (cache v)) v)
  | Purge =>
      if confirm env then Some (State_default, View_default) else Some (s, v)
  | Tick => Some (s, v)
  | Nothing => Some (s, v)
  end.

(** [App::update]: the dispatch, then [self.storage.store(KEY, Json(&self.state))]. *)
Definition update (env : Env) (msg : Msg) (a : App) : option App :=
  match handle env msg (state a) (view a) with
  | Some (s', v') => Some (mkApp s' v' (storage a ++ [s']))
  | None => None
  end.

(** ** Reads of the current item and start-up (lines 40-47, 181-206, 399-405) *)

(** [App::get_current_index_and_item]: the focused index and item, read
    through the bounds-checked [lists.get] and [list.get]. *)
Definition get_current_index_and_item (a : App) : option (nat * Item) :=
  match lists (state a) !! current_list (view a), current_item (view a) with
  | Some l, Some idx =>
      match l !! idx with Some it => Some (idx, it) | None => None end
  | _, _ => None
  end.

(** The smaller of two keys in [BTreeMap] order, i.e. byte-wise
    lexicographic order on [String], which is [String.compare]. *)
Definition min_key (k : string) (acc : option string) : option string :=
  match acc with
  | None => Some k
  | Some k' => if String.leb k k' then Some k else Some k'
  end.

(** [map.keys().cloned().next()]: the least key, if any. *)
Definition first_key {V} (m : gmap string V) : option string :=
  foldr min_key None (map fst (map_to_list m)).

(** [.unwrap_or_default()] on an [Option<String>]. *)
Definition unwrap_or_default_string (o : option string) : string :=
  match o with Some x => x | None => "" end.

(** [View::new(current_list, current_group)]. *)
Definition View_new (cl cg : string) : View := mkView cl "" cg "" ∅ None.

(** [App::create]: [restored] is [storage.restore(KEY)] when it parses
    ([Json(Ok(..))]), [None] when it is missing or does not parse; nothing
    is stored during [create]. *)
Definition create (restored : option State) : App :=
  let s := match restored with Some s => s | None => State_default end in
  mkApp s (View_new (unwrap_or_default_string (first_key (lists s)))
                    (unwrap_or_default_string (first_key (groups s)))) [].

(** The messages whose branch of [App::update] assigns only [self.view]
    (focus, input buffers, cache) or nothing at all. *)
Definition touches_view_only (msg : Msg) : bool :=
  match msg with
  | FocusItem _ | BlurItem | FocusList _ | BlurList | UpdateListName _
  | FocusGroup _ | BlurGroup | UpdateGroupName _
  | ThawAllLists | FreezeList _ | ThawList _ | Tick | Nothing => true
  | _ => false
  end.

(** The messages that ask [self.dialog.confirm] first. *)
Definition needs_confirm (msg : Msg) : bool :=
  match msg with
  | RemoveList _ | RemoveGroup _ | Purge => true
  | _ => false
  end.

(** The messages whose branch may write the cache entry of [n]. *)
Definition touches_cache_entry (n : string) (msg : Msg) : bool :=
  match msg with
  | ThawList k | FreezeList k => String.eqb k n
  | ThawAllLists | Purge => true
  | _ => false
  end.

(** ** Concrete inputs *)

Definition dune : Item := mkItem (Some "Dune") None None None.
Definition arrival : Item := mkItem (Some "Arrival") None None None.

(** A state whose only list, "movies", is present but empty. *)
Definition state_empty_movies : State := mkState {[ "movies" := [] ]} ∅.

Definition app_empty_movies : App :=
  mkApp state_empty_movies (set_current_list "movies" View_default) [].

(** A state whose only list, "movies", holds two items. *)
Definition state_two_movies : State := mkState {[ "movies" := [dune; arrival] ]} ∅.

(** A state whose list "movies" exists and whose staged list name is
    "movies", with no current list. *)
Definition app_movies_staged : App :=
  mkApp (mkState {[ "movies" := [dune] ]} ∅) (mkView "" "movies" "" "" ∅ None) [].

(** ** Lemmas on the remove-all loop *)

Lemma position_none (n : string) (l : list string) :
  position n l = None -> List.filter (keep_other n) l = l.
Proof.
  induction l as [|x l IH]; simpl; [done|].
  unfold keep_other at 1.
  destruct (String.eqb x n) eqn:E; [done|].
  destruct (position n l); [done|]. intros _. simpl. by rewrite IH.
Qed.

Lemma position_some (n : string) (l : list string) (i : nat) :
  position n l = Some i ->
  i < length l /\ l = take i l ++ n :: drop (S i) l /\
  List.filter (keep_other n) (take i l) = take i l.
Proof.
  revert i. induction l as [|x l IH]; intros i; simpl; [done|].
  destruct (String.eqb x n) eqn:E.
  - intros [= <-]. apply String.eqb_eq in E. subst. simpl. split; [lia|done].
  - destruct (position n l) as [j|] eqn:P; [|done]. intros [= <-].
    destruct (IH j eq_refl) as (Hlt & Heq & Hf). simpl.
    unfold keep_other at 1. rewrite E. simpl.
    split; [lia|]. split; [by rewrite <- Heq | by rewrite Hf].
Qed.

Lemma position_lt (n : string) (l : list string) (i : nat) :
  position n l = Some i -> i < length l.
Proof. intros H. by apply position_some in H as [? _]. Qed.

Lemma remove_all_loop_filter (fuel : nat) (n : string) (g : list string) :
  length g < fuel -> remove_all_loop fuel n g = List.filter (keep_other n) g.
Proof.
  revert g. induction fuel as [|fuel IH]; intros g Hf; [lia|]. simpl.
  destruct (position n g) as [i|] eqn:P.
  - destruct (position_some n g i P) as (Hlt & Heq & Htake).
    unfold vec_remove_at.
    assert (Hlen : length (take i g ++ drop (S i) g) = length g - 1).
    { rewrite length_app, length_take, length_drop. lia. }
    rewrite IH by lia.
    rewrite Heq at 3. rewrite !List.filter_app. simpl.
    assert (Hk : keep_other n n = false) by (unfold keep_other; by rewrite String.eqb_refl). by rewrite Hk.
  - by rewrite position_none.
Qed.

Lemma remove_all_filter (n : string) (g : list string) :
  remove_all n g = List.filter (keep_other n) g.
Proof. apply remove_all_loop_filter. lia. Qed.

Lemma remove_all_not_in (n : string) (g : list string) :
  ~ In n (remove_all n g).
Proof.
  rewrite remove_all_filter. intros Hin. apply filter_In in Hin as [_ H].
  unfold keep_other in H. rewrite String.eqb_refl in H. done.
Qed.

(** ** General facts about [update] *)


(** [RemoveListItem i] with [i] in bounds: [Vec::remove] on the current list. *)
Lemma update_remove_list_item_in_bounds (env : Env) (a : App) (l : list Item) (i : nat) :
  lists (state a) !! current_list (view a) = Some l -> i < length l ->
  update env (RemoveListItem i) a =
    Some (mkApp (mkState (<[current_list (view a) := vec_remove_at i l]> (lists (state a)))
                         (groups (state a)))
                (view a)
                (storage a ++ [mkState (<[current_list (view a) := vec_remove_at i l]> (lists (state a)))
                                       (groups (state a))])).
Proof.
  intros Hl Hi. unfold update, handle. rewrite Hl. unfold vec_remove.
  by rewrite decide_True by done.
Qed.

(** ** Claims *)

(** C1: drawing from a list that is absent or empty yields the sentinel
    empty item and does not fail.  On the code, a list that is present but
    empty makes [choose(..).unwrap()] panic: [choose_from_list] and the
    [FreezeList] message fail there, whatever the random draw. *)
Theorem C1_draw_present_empty_list_panics (env : Env) :
  choose_from_list env state_empty_movies "movies" = None /\
  update env (FreezeList "movies") app_empty_movies = None.
Proof. split; reflexivity. Qed.

(** C2: [RemoveListItem idx] with an invalid index is a silent no-op.  On
    the code, [Vec::remove] panics for every index of an empty current
    list, so the message fails instead of leaving the state unchanged. *)
Theorem C2_remove_list_item_out_of_range_panics (env : Env) (idx : nat) :
  update env (RemoveListItem idx) app_empty_movies = None.
Proof. reflexivity. Qed.

(** C3 (as stated): removing the focused item clears the current-item
    focus.  Counterexample: with focus on index 1 of ["Dune"; "Arrival"],
    removing index 1 leaves the focus at 1, past the end of the list. *)
Lemma C3_focus_not_cleared :
  exists a', update (mkEnv true 0) (RemoveListItem 1)
      (mkApp (mkState {[ "movies" := [dune; arrival] ]} ∅)
             (mkView "movies" "" "" "" ∅ (Some 1)) []) = Some a' /\
    lists (state a') !! "movies" = Some [dune] /\
    current_item (view a') = Some 1.
Proof. eexists. split; [reflexivity|]. split; reflexivity. Qed.

(** C3 (amended): removing the item at a valid index [i] of the current
    list keeps the items before [i], shifts every item after [i] down by
    one, shortens the list by one, and leaves the whole view (in particular
    the current-item focus) unchanged. *)
Theorem C3_remove_item_shifts (env : Env) (a : App) (l : list Item) (i : nat) :
  lists (state a) !! current_list (view a) = Some l -> i < length l ->
  exists a' l', update env (RemoveListItem i) a = Some a' /\
    lists (state a') !! current_list (view a) = Some l' /\
    length l' = length l - 1 /\
    (forall j, j < i -> l' !! j = l !! j) /\
    (forall j, i < j -> l' !! (j - 1) = l !! j) /\
    view a' = view a.
Proof.
  intros Hl Hi. unfold update, handle. rewrite Hl. unfold vec_remove.
  rewrite decide_True by done.
  eexists _, _. split; [reflexivity|]. simpl.
  rewrite lookup_insert_eq. split; [reflexivity|]. unfold vec_remove_at.
  split; [rewrite length_app, length_take, length_drop; lia|].
  split; [|split; [|reflexivity]].
  - intros j Hj. rewrite lookup_app_l by (rewrite length_take; lia).
    by rewrite lookup_take_lt by lia.
  - intros j Hj. rewrite lookup_app_r by (rewrite length_take; lia).
    rewrite lookup_drop, length_take. f_equal. lia.
Qed.

Lemma C3_remove_item_shifts_witness :
  lists (state (mkApp (mkState {[ "movies" := [dune; arrival] ]} ∅)
                      (mkView "movies" "" "" "" ∅ (Some 0)) []))
    !! "movies" = Some [dune; arrival] /\ 0 < 2 /\
  exists a' l', update (mkEnv true 0) (RemoveListItem 0)
      (mkApp (mkState {[ "movies" := [dune; arrival] ]} ∅)
             (mkView "movies" "" "" "" ∅ (Some 0)) []) = Some a' /\
    lists (state a') !! "movies" = Some l' /\
    length l' = 2 - 1 /\
    (forall j, j < 0 -> l' !! j = [dune; arrival] !! j) /\
    (forall j, 0 < j -> l' !! (j - 1) = [dune; arrival] !! j) /\
    view a' = mkView "movies" "" "" "" ∅ (Some 0).
Proof.
  split; [reflexivity|]. split; [lia|].
  exact (C3_remove_item_shifts (mkEnv true 0)
           (mkApp (mkState {[ "movies" := [dune; arrival] ]} ∅)
                  (mkView "movies" "" "" "" ∅ (Some 0)) [])
           [dune; arrival] 0 eq_refl ltac:(simpl; lia)).
Defined.

(** C4: after a confirmed [RemoveList n], the list [n] is gone from the
    lists map; if it existed, every group keeps exactly its members other
    than [n], in order (all occurrences of [n] removed, in every group);
    if it did not exist, the groups are untouched. *)
Theorem C4_remove_list_scrubs_groups (r : nat) (a : App) (n : string) :
  exists a', update (mkEnv true r) (RemoveList n) a = Some a' /\
    lists (state a') = delete n (lists (state a)) /\
    match lists (state a) !! n with
    | Some _ =>
        groups (state a') = List.filter (keep_other n) <$> groups (state a) /\
        map_Forall (fun _ m => ~ In n m) (groups (state a'))
    | None => groups (state a') = groups (state a)
    end.
Proof.
  unfold update, handle. simpl.
  destruct (lists (state a) !! n) as [l|] eqn:E; eexists; (split; [reflexivity|]); simpl.
  - split; [done|]. split.
    + apply map_fmap_ext. intros k g _. apply remove_all_filter.
    + intros k m Hm. apply lookup_fmap_Some in Hm as (g & <- & _).
      apply remove_all_not_in.
  - done.
Qed.

(** C5: a confirmed [Purge] resets the state to empty lists and groups and
    the view to its default (empty cache, no focus, empty buffers); a
    declined one leaves state and view as they were.  Both store a
    snapshot. *)
Theorem C5_purge (r : nat) (a : App) :
  update (mkEnv true r) Purge a =
    Some (mkApp (mkState ∅ ∅) (mkView "" "" "" "" ∅ None)
                (storage a ++ [mkState ∅ ∅])) /\
  update (mkEnv false r) Purge a =
    Some (mkApp (state a) (view a) (storage a ++ [state a])).
Proof. split; reflexivity. Qed.

(** C6: every message ends with one write of the post-message state.  On
    the code the write comes after the dispatch, so a message whose branch
    panics writes nothing: [FreezeList] on a present but empty list (the
    defect of C1) and [RemoveListItem] out of range (the defect of C2).
    [Tick], [Nothing] and a declined [RemoveList] do write once. *)
Theorem C6_panicking_message_writes_nothing (env : Env) (a : App) (n : string) :
  update env Tick a = Some (mkApp (state a) (view a) (storage a ++ [state a])) /\
  update env Nothing a = Some (mkApp (state a) (view a) (storage a ++ [state a])) /\
  update (mkEnv false (rng env)) (RemoveList n) a =
    Some (mkApp (state a) (view a) (storage a ++ [state a])) /\
  update env (FreezeList "movies") app_empty_movies = None /\
  update env (RemoveListItem 0) app_empty_movies = None.
Proof. repeat split; reflexivity. Qed.

(** C7: [CreateList] with a staged name [X] that already names a list
    leaves the lists map (so the items of [X]) unchanged, focuses [X] and
    drains the staged name. *)
Theorem C7_create_existing_list (env : Env) (a : App) (l : list Item) :
  lists (state a) !! new_list_name (view a) = Some l ->
  exists a', update env CreateList a = Some a' /\
    lists (state a') = lists (state a) /\
    lists (state a') !! new_list_name (view a) = Some l /\
    current_list (view a') = new_list_name (view a) /\
    new_list_name (view a') = "".
Proof.
  intros Hl. unfold update, handle, entry_or_default. rewrite Hl.
  eexists. split; [reflexivity|]. simpl. done.
Qed.

Lemma C7_create_existing_list_witness :
  lists (state app_movies_staged) !! new_list_name (view app_movies_staged) = Some [dune] /\
  exists a', update (mkEnv true 0) CreateList app_movies_staged = Some a' /\
    lists (state a') = lists (state app_movies_staged) /\
    lists (state a') !! new_list_name (view app_movies_staged) = Some [dune] /\
    current_list (view a') = new_list_name (view app_movies_staged) /\
    new_list_name (view a') = "".
Proof.
  split; [vm_compute; reflexivity|].
  apply (C7_create_existing_list (mkEnv true 0) app_movies_staged [dune]).
  vm_compute. reflexivity.
Defined.

(** C8: [RemoveGroupItem n] removes every occurrence of [n] from the
    current group, keeping the other members in their order, and leaves
    the groups untouched when the current group is absent. *)
Theorem C8_remove_group_item_all_occurrences (env : Env) (a : App) (n : string) :
  exists a', update env (RemoveGroupItem n) a = Some a' /\
    lists (state a') = lists (state a) /\
    groups (state a') =
      match groups (state a) !! current_group (view a) with
      | Some g => <[current_group (view a) := List.filter (keep_other n) g]> (groups (state a))
      | None => groups (state a)
      end /\
    match groups (state a') !! current_group (view a) with
    | Some g' => ~ In n g'
    | None => groups (state a) !! current_group (view a) = None
    end.
Proof.
  unfold update, handle.
  destruct (groups (state a) !! current_group (view a)) as [g|] eqn:E;
    eexists; (split; [reflexivity|]); simpl.
  - rewrite remove_all_filter, lookup_insert_eq. split; [done|]. split; [done|].
    rewrite <- remove_all_filter. apply remove_all_not_in.
  - rewrite E. done.
Qed.

(** C9: on the selection cache, [freeze n it] then [peek n] gives [it]
    (overwriting any earlier entry), [thaw n] then [peek n] gives nothing,
    [thaw] of a name without entry changes nothing, and [thaw_all] empties
    the cache; the [FreezeList], [ThawList] and [ThawAllLists] messages
    apply exactly these operations to the view's cache. *)
Theorem C9_freeze_thaw (c : gmap string Item) (n : string) (it : Item) :
  peek (freeze n it c) n = Some it /\
  peek (thaw n c) n = None /\
  (peek c n = None -> thaw n c = c) /\
  thaw_all c = ∅.
Proof.
  unfold peek, freeze, thaw, thaw_all. split; [apply lookup_insert_eq|].
  split; [apply lookup_delete_eq|]. split; [|done].
  intros H. by apply delete_id.
Qed.

Lemma C9_freeze_thaw_witness :
  peek (freeze "movies" dune {[ "movies" := arrival ]}) "movies" = Some dune /\
  peek (thaw "movies" {[ "movies" := arrival ]}) "movies" = None /\
  (peek {[ "movies" := arrival ]} "books" = None ->
   thaw "books" {[ "movies" := arrival ]} = {[ "movies" := arrival ]}) /\
  thaw_all {[ "movies" := arrival ]} = ∅.
Proof.
  destruct (C9_freeze_thaw {[ "movies" := arrival ]} "movies" dune) as (H1 & H2 & _ & H4).
  destruct (C9_freeze_thaw {[ "movies" := arrival ]} "books" dune) as (_ & _ & H3 & _).
  split; [exact H1|]. split; [exact H2|]. split; [exact H3|exact H4].
Defined.

(** C10: when the current list names no list, [CreateItem] leaves the
    lists and groups unchanged and sets the current-item focus to none. *)
Theorem C10_create_item_without_list (env : Env) (a : App) :
  lists (state a) !! current_list (view a) = None ->
  exists a', update env CreateItem a = Some a' /\
    lists (state a') = lists (state a) /\
    groups (state a') = groups (state a) /\
    current_item (view a') = None.
Proof.
  intros H. unfold update, handle. rewrite H. eexists. split; [reflexivity|]. done.
Qed.

Lemma C10_create_item_without_list_witness :
  lists (state app_movies_staged) !! current_list (view app_movies_staged) = None /\
  exists a', update (mkEnv true 0) CreateItem app_movies_staged = Some a' /\
    lists (state a') = lists (state app_movies_staged) /\
    groups (state a') = groups (state app_movies_staged) /\
    current_item (view a') = None.
Proof.
  split; [vm_compute; reflexivity|].
  apply (C10_create_item_without_list (mkEnv true 0) app_movies_staged).
  vm_compute. reflexivity.
Defined.

(** ** Further properties of the handler *)

Lemma choose_some {A} (r : nat) (l : list A) :
  l <> [] -> exists it, choose r l = Some it /\ In it l.
Proof.
  intros Hne. destruct l as [|x l']; [done|]. unfold choose.
  assert (Hlt : r mod length (x :: l') < length (x :: l')).
  { apply Nat.mod_upper_bound. simpl. lia. }
  destruct (nth_error (x :: l') (r mod length (x :: l'))) as [it|] eqn:E.
  - exists it. split; [done|]. by apply nth_error_In in E.
  - apply nth_error_None in E. lia.
Qed.


(** Drawing from a present, non-empty list succeeds and yields one of the
    list's items. *)
Theorem choose_from_list_member (env : Env) (s : State) (n : string) (l : list Item) :
  lists s !! n = Some l -> l <> [] ->
  exists it, choose_from_list env s n = Some it /\ In it l.
Proof.
  intros Hl Hne. unfold choose_from_list. rewrite Hl.
  destruct (choose_some (rng env) l Hne) as (it & -> & Hin). eauto.
Qed.

Lemma choose_from_list_member_witness :
  lists state_two_movies !! "movies" = Some [dune; arrival] /\ [dune; arrival] <> [] /\
  exists it, choose_from_list (mkEnv true 7) state_two_movies "movies" = Some it /\
    In it [dune; arrival].
Proof.
  split; [vm_compute; reflexivity|]. split; [done|].
  apply (choose_from_list_member (mkEnv true 7) state_two_movies "movies" [dune; arrival]);
    [vm_compute; reflexivity | done].
Defined.



(** The handler panics exactly in two places: [FreezeList n] when the list
    [n] is present but empty, and [RemoveListItem i] when the current list
    is present and [i] is not below its length.  Every other message, on
    every state, returns. *)
Theorem update_fails_iff (env : Env) (msg : Msg) (a : App) :
  update env msg a = None <->
  (exists n, msg = FreezeList n /\ lists (state a) !! n = Some []) \/
  (exists i l, msg = RemoveListItem i /\
     lists (state a) !! current_list (view a) = Some l /\ length l <= i).
Proof.
  unfold update.
  destruct msg; unfold handle;
    try (try destruct (lists (state a) !! current_list (view a));
         try destruct (groups (state a) !! current_group (view a));
         try destruct (confirm env); try destruct (lists (state a) !! n); simpl;
         split; intros Hx;
         first [ discriminate Hx
               | destruct Hx as [(? & Hm & ?)|(? & ? & Hm & ? & ?)]; discriminate Hm ]).
  - (* RemoveListItem *)
    match goal with |- context [RemoveListItem ?k] => rename k into idx end.
    destruct (lists (state a) !! current_list (view a)) as [l|] eqn:El.
    + unfold vec_remove. destruct (decide (idx < length l)) as [Hlt|Hge].
      * split; [done|]. intros [(? & Hm & _)|(? & ? & Hm & Hl & ?)]; [discriminate Hm|].
        injection Hm as <-. injection Hl as <-. lia.
      * split; [intros _; right; exists idx, l; split_and!; [done|done|lia]|done].
    + split; [done|]. intros [(? & Hm & _)|(? & ? & ? & Hl & ?)]; [discriminate Hm|congruence].
  - (* FreezeList *)
    match goal with |- context [FreezeList ?k] => rename k into n end.
    unfold choose_from_list. destruct (lists (state a) !! n) as [[|x l']|] eqn:El.
    + split; [intros _; left; by exists n|done].
    + destruct (choose_some (rng env) (x :: l') ltac:(done)) as (it & -> & _).
      split; [done|]. intros [(? & Hm & Hn)|(? & ? & Hm & _)]; [|discriminate Hm].
      injection Hm as <-. congruence.
    + split; [done|]. intros [(? & Hm & Hn)|(? & ? & Hm & _)]; [|discriminate Hm].
      injection Hm as <-. congruence.
Qed.

(** The focus, buffer and cache messages never change the persisted state:
    when they return, the snapshot they store is the state as it was. *)
Theorem view_only_messages_keep_state (env : Env) (msg : Msg) (a a' : App) :
  touches_view_only msg = true -> update env msg a = Some a' ->
  state a' = state a /\ storage a' = storage a ++ [state a].
Proof.
  intros Hv. unfold update.
  destruct msg; try discriminate Hv; unfold handle;
    try (destruct (choose_from_list env (state a) n));
    intros Hu; try discriminate Hu; injection Hu as <-; done.
Qed.

Lemma view_only_messages_keep_state_witness :
  let a' := mkApp (state app_movies_staged)
                  (set_current_item (Some 3) (view app_movies_staged))
                  [state app_movies_staged] in
  touches_view_only (FocusItem 3) = true /\
  update (mkEnv true 0) (FocusItem 3) app_movies_staged = Some a' /\
  state a' = state app_movies_staged /\
  storage a' = storage app_movies_staged ++ [state app_movies_staged].
Proof.
  intros a'. split; [reflexivity|]. split; [reflexivity|].
  apply (view_only_messages_keep_state (mkEnv true 0) (FocusItem 3) app_movies_staged a');
    reflexivity.
Defined.

(** A declined confirmation ([RemoveList], [RemoveGroup], [Purge]) leaves
    state and view exactly as they were and stores the unchanged state. *)
Theorem declined_confirmation_is_noop (r : nat) (msg : Msg) (a : App) :
  needs_confirm msg = true ->
  update (mkEnv false r) msg a = Some (mkApp (state a) (view a) (storage a ++ [state a])).
Proof. intros H. destruct msg; try discriminate H; reflexivity. Qed.

Lemma declined_confirmation_is_noop_witness :
  needs_confirm (RemoveList "movies") = true /\
  update (mkEnv false 0) (RemoveList "movies") app_movies_staged =
    Some (mkApp (state app_movies_staged) (view app_movies_staged)
                (storage app_movies_staged ++ [state app_movies_staged])).
Proof.
  split; [reflexivity|].
  apply (declined_confirmation_is_noop 0 (RemoveList "movies") app_movies_staged).
  reflexivity.
Defined.

(** [EditItemName text] on a valid focus rewrites only the focused item's
    name: to [None] for the empty text and to [Some text] otherwise; the
    other fields, the other items, the other lists, the groups and the view
    are untouched. *)
Theorem edit_name_sets_focused_item (env : Env) (a : App) (l : list Item)
    (idx : nat) (it : Item) (text : string) :
  lists (state a) !! current_list (view a) = Some l ->
  current_item (view a) = Some idx -> l !! idx = Some it ->
  exists a' l', update env (EditItemName text) a = Some a' /\
    lists (state a') !! current_list (view a) = Some l' /\
    l' !! idx = Some (mkItem (if String.eqb text "" then None else Some text)
                             (image it) (link it) (comment it)) /\
    length l' = length l /\
    (forall j, j <> idx -> l' !! j = l !! j) /\
    (forall k, k <> current_list (view a) -> lists (state a') !! k = lists (state a) !! k) /\
    groups (state a') = groups (state a) /\ view a' = view a.
Proof.
  intros Hl Hi Hit. unfold update, handle, edit_current_item. rewrite Hl, Hi, Hit.
  eexists _, _. split; [reflexivity|]. simpl. rewrite lookup_insert_eq.
  split; [reflexivity|].
  split; [rewrite list_lookup_insert_eq; [reflexivity|]; by eapply lookup_lt_Some|].
  split; [apply length_insert|].
  split; [intros j Hj; by apply list_lookup_insert_ne|].
  split; [intros k Hk; by apply lookup_insert_ne|]. done.
Qed.

Lemma edit_name_sets_focused_item_witness :
  let a := mkApp state_two_movies (mkView "movies" "" "" "" ∅ (Some 1)) [] in
  lists (state a) !! current_list (view a) = Some [dune; arrival] /\
  current_item (view a) = Some 1 /\ [dune; arrival] !! 1 = Some arrival /\
  exists a' l', update (mkEnv true 0) (EditItemName "") a = Some a' /\
    lists (state a') !! current_list (view a) = Some l' /\
    l' !! 1 = Some (mkItem (if String.eqb "" "" then None else Some "")
                           (image arrival) (link arrival) (comment arrival)) /\
    length l' = length [dune; arrival] /\
    (forall j, j <> 1 -> l' !! j = [dune; arrival] !! j) /\
    (forall k, k <> current_list (view a) -> lists (state a') !! k = lists (state a) !! k) /\
    groups (state a') = groups (state a) /\ view a' = view a.
Proof.
  intros a. split; [vm_compute; reflexivity|]. split; [reflexivity|].
  split; [reflexivity|].
  apply (edit_name_sets_focused_item (mkEnv true 0) a [dune; arrival] 1 arrival "");
    [vm_compute; reflexivity | reflexivity | reflexivity].
Defined.

(** Without a valid focus (no current item, no current list, or an index
    past the end) the four field edits change nothing and do not fail. *)
Theorem edit_without_valid_focus_is_noop (env : Env) (a : App) (text : string) :
  get_current_index_and_item a = None ->
  update env (EditItemName text) a = Some (mkApp (state a) (view a) (storage a ++ [state a])) /\
  update env (EditItemImage text) a = Some (mkApp (state a) (view a) (storage a ++ [state a])) /\
  update env (EditItemLink text) a = Some (mkApp (state a) (view a) (storage a ++ [state a])) /\
  update env (EditItemComment text) a = Some (mkApp (state a) (view a) (storage a ++ [state a])).
Proof.
  unfold get_current_index_and_item. intros H.
  unfold update, handle, edit_current_item.
  destruct (lists (state a) !! current_list (view a)) as [l|];
    destruct (current_item (view a)) as [idx|]; try (split_and!; reflexivity).
  destruct (l !! idx); [discriminate H|]. split_and!; reflexivity.
Qed.

Lemma edit_without_valid_focus_is_noop_witness :
  let a := mkApp state_two_movies (mkView "movies" "" "" "" ∅ (Some 2)) [] in
  get_current_index_and_item a = None /\
  update (mkEnv true 0) (EditItemName "x") a = Some (mkApp (state a) (view a) (storage a ++ [state a])) /\
  update (mkEnv true 0) (EditItemImage "x") a = Some (mkApp (state a) (view a) (storage a ++ [state a])) /\
  update (mkEnv true 0) (EditItemLink "x") a = Some (mkApp (state a) (view a) (storage a ++ [state a])) /\
  update (mkEnv true 0) (EditItemComment "x") a = Some (mkApp (state a) (view a) (storage a ++ [state a])).
Proof.
  intros a. split; [vm_compute; reflexivity|].
  apply (edit_without_valid_focus_is_noop (mkEnv true 0) a "x"). vm_compute. reflexivity.
Defined.

(** [CreateItem] on an existing current list appends one all-empty item at
    the end and focuses it; the new focus is valid: reading the current
    item returns that empty item at the old length. *)
Theorem create_item_appends_and_focuses (env : Env) (a : App) (l : list Item) :
  lists (state a) !! current_list (view a) = Some l ->
  exists a', update env CreateItem a = Some a' /\
    lists (state a') !! current_list (view a) = Some (l ++ [Item_default]) /\
    current_item (view a') = Some (length l) /\
    get_current_index_and_item a' = Some (length l, Item_default).
Proof.
  intros Hl. unfold update, handle. rewrite Hl. eexists. split; [reflexivity|].
  simpl. rewrite lookup_insert_eq. rewrite length_app. simpl.
  replace (length l + 1 - 1) with (length l) by lia.
  split; [done|]. split; [done|].
  unfold get_current_index_and_item. simpl. rewrite lookup_insert_eq.
  rewrite lookup_app_r by lia. rewrite Nat.sub_diag. done.
Qed.

Lemma create_item_appends_and_focuses_witness :
  lists (state (mkApp state_two_movies (set_current_list "movies" View_default) []))
    !! current_list (view (mkApp state_two_movies (set_current_list "movies" View_default) []))
    = Some [dune; arrival] /\
  exists a', update (mkEnv true 0) CreateItem
      (mkApp state_two_movies (set_current_list "movies" View_default) []) = Some a' /\
    lists (state a') !! current_list (view (mkApp state_two_movies (set_current_list "movies" View_default) []))
      = Some ([dune; arrival] ++ [Item_default]) /\
    current_item (view a') = Some (length [dune; arrival]) /\
    get_current_index_and_item a' = Some (length [dune; arrival], Item_default).
Proof.
  split; [vm_compute; reflexivity|].
  apply (create_item_appends_and_focuses (mkEnv true 0)
           (mkApp state_two_movies (set_current_list "movies" View_default) []) [dune; arrival]).
  vm_compute. reflexivity.
Defined.

(** Removing the focused last item leaves the focus index in place, past
    the end of the list, but the bounds-checked read of the current item
    then finds nothing: the dangling focus is never dereferenced. *)
Theorem remove_focused_last_item_focus_unreadable (env : Env) (a : App) (l : list Item) :
  lists (state a) !! current_list (view a) = Some l -> l <> [] ->
  current_item (view a) = Some (length l - 1) ->
  exists a', update env (RemoveListItem (length l - 1)) a = Some a' /\
    current_item (view a') = Some (length l - 1) /\
    get_current_index_and_item a' = None.
Proof.
  intros Hl Hne Hi.
  assert (Hlt : length l - 1 < length l) by (destruct l; [done|simpl; lia]).
  rewrite (update_remove_list_item_in_bounds env a l _ Hl Hlt).
  eexists. split; [reflexivity|]. simpl. split; [done|].
  unfold get_current_index_and_item. simpl. rewrite lookup_insert_eq, Hi.
  rewrite (proj2 (lookup_ge_None _ _)); [done|].
  unfold vec_remove_at. rewrite length_app, length_take, length_drop. lia.
Qed.

Lemma remove_focused_last_item_focus_unreadable_witness :
  let a := mkApp state_two_movies (mkView "movies" "" "" "" ∅ (Some 1)) [] in
  lists (state a) !! current_list (view a) = Some [dune; arrival] /\
  [dune; arrival] <> [] /\
  current_item (view a) = Some (length [dune; arrival] - 1) /\
  exists a', update (mkEnv true 0) (RemoveListItem (length [dune; arrival] - 1)) a = Some a' /\
    current_item (view a') = Some (length [dune; arrival] - 1) /\
    get_current_index_and_item a' = None.
Proof.
  intros a. split; [vm_compute; reflexivity|]. split; [done|]. split; [reflexivity|].
  apply (remove_focused_last_item_focus_unreadable (mkEnv true 0) a [dune; arrival]);
    [vm_compute; reflexivity | done | reflexivity].
Defined.

Lemma update_add_to_group (env : Env) (a : App) (g : list string) (n : string) :
  groups (state a) !! current_group (view a) = Some g ->
  update env (AddToGroup n) a =
    Some (mkApp (mkState (lists (state a)) (<[current_group (view a) := g ++ [n]]> (groups (state a))))
                (view a)
                (storage a ++ [mkState (lists (state a))
                                 (<[current_group (view a) := g ++ [n]]> (groups (state a)))])).
Proof. intros Hg. unfold update, handle. by rewrite Hg. Qed.

(** Group membership keeps duplicates on insertion and drops them all on
    removal: adding [n] twice to the current group appends it twice, and a
    following [RemoveGroupItem n] leaves the group's original members other
    than [n], in order. *)
Theorem add_twice_then_remove_group_member (env : Env) (a : App) (g : list string) (n : string) :
  groups (state a) !! current_group (view a) = Some g ->
  exists a1 a2 a3,
    update env (AddToGroup n) a = Some a1 /\
    update env (AddToGroup n) a1 = Some a2 /\
    groups (state a2) !! current_group (view a) = Some (g ++ [n; n]) /\
    update env (RemoveGroupItem n) a2 = Some a3 /\
    groups (state a3) !! current_group (view a) = Some (List.filter (keep_other n) g).
Proof.
  intros Hg. rewrite (update_add_to_group env a g n Hg).
  do 3 eexists. split; [reflexivity|].
  rewrite (update_add_to_group env _ (g ++ [n]) n) by (simpl; apply lookup_insert_eq).
  split; [reflexivity|]. simpl.
  rewrite insert_insert_eq, lookup_insert_eq, <- app_assoc. split; [reflexivity|].
  unfold update, handle. simpl. rewrite lookup_insert_eq.
  split; [reflexivity|]. simpl. rewrite lookup_insert_eq.
  rewrite remove_all_filter, !List.filter_app. simpl.
  assert (Hk : keep_other n n = false) by (unfold keep_other; by rewrite String.eqb_refl).
  rewrite Hk, app_nil_r. reflexivity.
Qed.

Lemma add_twice_then_remove_group_member_witness :
  let a := mkApp (mkState ∅ {[ "weekend" := ["books"; "movies"] ]})
                 (set_current_group "weekend" View_default) [] in
  groups (state a) !! current_group (view a) = Some ["books"; "movies"] /\
  exists a1 a2 a3,
    update (mkEnv true 0) (AddToGroup "movies") a = Some a1 /\
    update (mkEnv true 0) (AddToGroup "movies") a1 = Some a2 /\
    groups (state a2) !! current_group (view a) = Some (["books"; "movies"] ++ ["movies"; "movies"]) /\
    update (mkEnv true 0) (RemoveGroupItem "movies") a2 = Some a3 /\
    groups (state a3) !! current_group (view a) =
      Some (List.filter (keep_other "movies") ["books"; "movies"]).
Proof.
  intros a. split; [vm_compute; reflexivity|].
  apply (add_twice_then_remove_group_member (mkEnv true 0) a ["books"; "movies"] "movies").
  vm_compute. reflexivity.
Defined.

(** [CreateGroup] with staged name [X] makes [X] a group (an empty one if
    it was absent, the existing members otherwise), leaves every other group
    and all lists as they were, focuses [X] and drains the buffer. *)
Theorem create_group_idempotent (env : Env) (a : App) :
  exists a', update env CreateGroup a = Some a' /\
    groups (state a') !! new_group_name (view a) =
      Some (match groups (state a) !! new_group_name (view a) with
            | Some g => g | None => [] end) /\
    (forall k, k <> new_group_name (view a) -> groups (state a') !! k = groups (state a) !! k) /\
    lists (state a') = lists (state a) /\
    current_group (view a') = new_group_name (view a) /\
    new_group_name (view a') = "".
Proof.
  unfold update, handle, entry_or_default. eexists. split; [reflexivity|]. simpl.
  destruct (groups (state a) !! new_group_name (view a)) as [g|] eqn:E.
  - split; [done|]. split; [done|]. done.
  - rewrite lookup_insert_eq. split; [done|].
    split; [intros k Hk; by apply lookup_insert_ne|]. done.
Qed.

Lemma create_then_remove_list_step (env : Env) (a : App) :
  lists (state a) !! new_list_name (view a) = None ->
  update env CreateList a =
    Some (mkApp (mkState (<[new_list_name (view a) := []]> (lists (state a))) (groups (state a)))
                (set_new_list_name "" (set_current_list (new_list_name (view a)) (view a)))
                (storage a ++ [mkState (<[new_list_name (view a) := []]> (lists (state a)))
                                       (groups (state a))])).
Proof. intros H. unfold update, handle, entry_or_default. by rewrite H. Qed.

(** Creating a list under a fresh staged name [X] and then deleting [X]
    (confirmed) gives back the original lists; each group loses every
    occurrence of [X], including references to [X] that no list backed
    before the creation. *)
Theorem create_then_remove_list (r : nat) (a : App) :
  lists (state a) !! new_list_name (view a) = None ->
  exists a1 a2,
    update (mkEnv true r) CreateList a = Some a1 /\
    update (mkEnv true r) (RemoveList (new_list_name (view a))) a1 = Some a2 /\
    lists (state a2) = lists (state a) /\
    groups (state a2) = List.filter (keep_other (new_list_name (view a))) <$> groups (state a).
Proof.
  intros H. rewrite (create_then_remove_list_step _ a H).
  do 2 eexists. split; [reflexivity|].
  unfold update, handle. simpl. rewrite lookup_insert_eq.
  split; [reflexivity|]. simpl. split.
  - by apply delete_insert_id.
  - apply map_fmap_ext. intros k g _. apply remove_all_filter.
Qed.

Lemma create_then_remove_list_witness :
  let a := mkApp (mkState ∅ {[ "weekend" := ["movies"; "books"] ]})
                 (set_new_list_name "movies" View_default) [] in
  lists (state a) !! new_list_name (view a) = None /\
  exists a1 a2,
    update (mkEnv true 0) CreateList a = Some a1 /\
    update (mkEnv true 0) (RemoveList (new_list_name (view a))) a1 = Some a2 /\
    lists (state a2) = lists (state a) /\
    groups (state a2) = List.filter (keep_other (new_list_name (view a))) <$> groups (state a).
Proof.
  intros a. split; [vm_compute; reflexivity|].
  apply (create_then_remove_list 0 a). vm_compute. reflexivity.
Defined.

Lemma foldr_min_key_in (ks : list string) (k : string) :
  foldr min_key None ks = Some k -> In k ks.
Proof.
  induction ks as [|x ks IH]; simpl; [done|]. unfold min_key at 1.
  destruct (foldr min_key None ks) as [k'|].
  - destruct (String.leb x k'); intros [= <-]; [by left|right; by apply IH].
  - intros [= <-]. by left.
Qed.

Lemma first_key_spec {V} (m : gmap string V) :
  m = ∅ \/ exists k, first_key m = Some k /\ is_Some (m !! k).
Proof.
  unfold first_key. destruct (map_to_list m) as [|[k0 v0] kvs] eqn:E.
  - left. by apply map_to_list_empty_iff.
  - right. simpl.
    destruct (min_key k0 (foldr min_key None (map fst kvs))) as [k|] eqn:Ek;
      [|unfold min_key at 1 in Ek; destruct (foldr min_key None (map fst kvs)) as [k'|];
        [destruct (String.leb k0 k'); discriminate Ek | discriminate Ek]].
    exists k. split; [done|].
    assert (Hin : In k (map fst (map_to_list m))).
    { apply foldr_min_key_in. rewrite E. simpl. done. }
    apply in_map_iff in Hin as ([k' v] & Hk & Hkv). simpl in Hk. subst k'.
    exists v. apply elem_of_map_to_list. by apply list_elem_of_In.
Qed.

(** [App::create]: a missing or unreadable snapshot starts from empty lists
    and groups; a restored snapshot is kept as it is, and the initial list
    and group focus each name an existing entry whenever there is one, with
    no item focused and an empty cache. *)
Theorem create_focuses_existing_entries (s : State) :
  state (create None) = State_default /\
  state (create (Some s)) = s /\
  (lists s = ∅ \/ is_Some (lists s !! current_list (view (create (Some s))))) /\
  (groups s = ∅ \/ is_Some (groups s !! current_group (view (create (Some s))))) /\
  current_item (view (create (Some s))) = None /\
  cache (view (create (Some s))) = ∅.
Proof.
  split; [reflexivity|]. split; [reflexivity|]. simpl.
  split; [|split; [|done]].
  - destruct (first_key_spec (lists s)) as [?|(k & -> & ?)]; [by left|by right].
  - destruct (first_key_spec (groups s)) as [?|(k & -> & ?)]; [by left|by right].
Qed.

(** A frozen pick stays as it is under every message other than thawing
    or re-freezing that name, thawing all, or purging; in particular
    deleting the list [n] leaves its cache entry in place. *)
Theorem frozen_pick_persists (env : Env) (msg : Msg) (a a' : App) (n : string) :
  touches_cache_entry n msg = false -> update env msg a = Some a' ->
  cache (view a') !! n = cache (view a) !! n.
Proof.
  intros Ht. unfold update.
  destruct msg; try discriminate Ht; unfold handle;
    try (try destruct (lists (state a) !! current_list (view a));
         try destruct (groups (state a) !! current_group (view a));
         try destruct (confirm env); try destruct (lists (state a) !! n0);
         try destruct (vec_remove _ _);
         intros Hu; first [discriminate Hu | injection Hu as <-; reflexivity]).
  - (* FreezeList k, k <> n *)
    match goal with H : touches_cache_entry _ (FreezeList ?k) = false |- _ =>
      rename k into k0 end.
    simpl in Ht. apply String.eqb_neq in Ht.
    destruct (choose_from_list env (state a) k0); intros Hu; [|discriminate Hu].
    injection Hu as <-. simpl. unfold freeze. by rewrite lookup_insert_ne.
  - (* ThawList k, k <> n *)
    match goal with H : touches_cache_entry _ (ThawList ?k) = false |- _ =>
      rename k into k0 end.
    simpl in Ht. apply String.eqb_neq in Ht.
    intros Hu. injection Hu as <-. simpl. unfold thaw. by rewrite lookup_delete_ne.
Qed.

Lemma frozen_pick_persists_witness :
  let a := mkApp state_two_movies (set_cache {[ "movies" := dune ]} View_default) [] in
  let a' := mkApp (mkState ∅ ∅) (set_cache {[ "movies" := dune ]} View_default)
                  [mkState ∅ ∅] in
  touches_cache_entry "movies" (RemoveList "movies") = false /\
  update (mkEnv true 0) (RemoveList "movies") a = Some a' /\
  cache (view a') !! "movies" = cache (view a) !! "movies".
Proof.
  intros a a'. split; [reflexivity|]. split; [vm_compute; reflexivity|].
  apply (frozen_pick_persists (mkEnv true 0) (RemoveList "movies") a a' "movies");
    [reflexivity | vm_compute; reflexivity].
Defined.

